(** * mywebnote: the localStorage settings service and the Handraw editor binding

    A shallow embedding of
    - [src/renderer/src/store/localstorage.ts] (class [LocalStorageService]),
    - the [Handraw] React component (hydration from the canvas store and the
      debounced write-back of edits),
    together with the properties the specification states about them. *)

From Stdlib Require Import Ascii String.
From stdpp Require Import gmap strings list fin_maps.

(** ** JavaScript values used by the two source files *)

Module Js.

(** [string | undefined | null], the argument type of [saveCurrentFileId]. *)
Inductive nullable_string : Type :=
| Str (s : string)
| Null
| Undefined.

(** Truthiness of a string: only the empty string is falsy. *)
Definition truthy (s : string) : bool :=
  match s with
  | EmptyString => false
  | String _ _ => true
  end.

(** [v || d] for [v : string | undefined | null]. *)
Definition or_default (v : nullable_string) (d : string) : string :=
  match v with
  | Str s => if truthy s then s else d
  | Null | Undefined => d
  end.

(** [v || d] for [v : string | null] (or [string | undefined]). *)
Definition opt_or_default (v : option string) (d : string) : string :=
  match v with
  | Some s => if truthy s then s else d
  | None => d
  end.

(** [value + ''] for a boolean. *)
Definition string_of_bool (b : bool) : string :=
  if b then "true" else "false".

Definition comma : ascii := ","%char.

(** [s.split(',')]: the pieces between the commas; never empty, the empty
    string splits into one empty piece. *)
Fixpoint split (s : string) : list string :=
  match s with
  | EmptyString => [EmptyString]
  | String c s' =>
      if Ascii.eqb c comma then EmptyString :: split s'
      else match split s' with
           | w :: ws => String c w :: ws
           | [] => [String c EmptyString]
           end
  end.

(** [arr.join(',')]. *)
Fixpoint join (arr : list string) : string :=
  match arr with
  | [] => EmptyString
  | [w] => w
  | w :: ws => w +:+ String comma (join ws)
  end.

(** [arr.includes(x)] on an array of strings. *)
Fixpoint includes (arr : list string) (x : string) : bool :=
  match arr with
  | [] => false
  | w :: ws => if String.eqb w x then true else includes ws x
  end.

(** [arr.concat(x)] for a single string [x]. *)
Definition concat (arr : list string) (x : string) : list string :=
  arr ++ [x].

(** Whether a string has a comma in it. *)
Fixpoint has_comma (s : string) : bool :=
  match s with
  | EmptyString => false
  | String c s' => if Ascii.eqb c comma then true else has_comma s'
  end.

(** Promises, as far as the two files observe them. *)
Inductive error : Type :=
| SyntaxError
| StorageUnavailable
| InvalidKey.

Inductive promise (A : Type) : Type :=
| Pending
| Fulfilled (a : A)
| Rejected (e : error).
Arguments Pending {A}.
Arguments Fulfilled {A} a.
Arguments Rejected {A} e.

(** The value a promise has resolved with, if it has. *)
Definition settled_value {A} (p : promise A) : option A :=
  match p with
  | Fulfilled a => Some a
  | Pending | Rejected _ => None
  end.

(** What running an executor [(resolve, reject) => { ... }] amounts to:
    the calls it made to [resolve] and [reject], in order, and how its
    body completed, by returning a value or by throwing. *)
Inductive settle_call (A : Type) : Type :=
| CallResolve (a : A)
| CallReject (e : error).
Arguments CallResolve {A} a.
Arguments CallReject {A} e.

Record executor_run (A R : Type) : Type := ExecutorRun {
  calls : list (settle_call A);
  completion : R + error
}.
Arguments ExecutorRun {A R} calls completion.
Arguments calls {A R} _.
Arguments completion {A R} _.

(** [new Promise(executor)]: the first call to [resolve] or [reject]
    settles the promise; with no such call, a throw rejects it and a
    normal return leaves it pending.  The value the executor returns is
    dropped. *)
Definition new_Promise {A R} (run : executor_run A R) : promise A :=
  match calls run with
  | CallResolve a :: _ => Fulfilled a
  | CallReject e :: _ => Rejected e
  | [] => match completion run with
          | inl _ => Pending
          | inr e => Rejected e
          end
  end.

End Js.

(** ** [localstorage.ts] *)

Module LocalStorage.

(** The browser's [localStorage]: string keys to string values;
    [getItem] gives [null] (here [None]) for a key that is not set. *)
Abbreviation storage := (gmap string string).

Definition getItem (k : string) (ls : storage) : option string := ls !! k.
Definition setItem (k v : string) (ls : storage) : storage := <[k := v]> ls.

Definition LOCALSTORAGE_MENU_OPEN_KEYS : string := "menu_open_keys".
Definition LOCALSTORAGE_CURRENT_FILE_ID : string := "current_file_id".
Definition LOCALSTORAGE_BOARD_CUSTOM_FONTS : string := "custom_fonts".
Definition LOCALSTORAGE_LANG_CODE : string := "lang_code".
Definition LOCALSTORAGE_BOARD_CUSTOM_FONT_SWITCH : string := "board_custom_font_switch".

Section Service.

(** [JSON.parse] and [JSON.stringify] on arrays of strings; [None] is a
    thrown [SyntaxError]. *)
Variable JSON_parse : string -> option (list string).
Variable JSON_stringify : list string -> string.

(** The body of the executor of [loadOpenKeys]: it takes neither
    [resolve] nor [reject] and returns the list it computed. *)
Definition loadOpenKeys_executor (ls : storage)
  : Js.executor_run (list string) (list string) :=
  Js.ExecutorRun []
    (match getItem LOCALSTORAGE_MENU_OPEN_KEYS ls with
     | Some localStr =>
         if Js.truthy localStr then
           match JSON_parse localStr with
           | Some keys => inl keys
           | None => inr Js.SyntaxError
           end
         else inl []
     | None => inl []
     end).

Definition loadOpenKeys (ls : storage) : Js.promise (list string) :=
  Js.new_Promise (loadOpenKeys_executor ls).

Definition saveOpenKeys (openKeys : list string) (ls : storage) : storage :=
  let localStr := JSON_stringify openKeys in
  setItem LOCALSTORAGE_MENU_OPEN_KEYS localStr ls.

End Service.

Definition saveCurrentFileId (fileId : Js.nullable_string) (ls : storage) : storage :=
  setItem LOCALSTORAGE_CURRENT_FILE_ID (Js.or_default fileId "") ls.

Definition loadCurrentFileId (ls : storage) : option string :=
  getItem LOCALSTORAGE_CURRENT_FILE_ID ls.

Definition loadBoardCustomFont (ls : storage) : option string :=
  getItem LOCALSTORAGE_BOARD_CUSTOM_FONTS ls.

(** [fontName && localStorage.setItem(...)]: nothing is stored for [null]
    and for the empty string. *)
Definition saveBoardCustomFont (fontName : option string) (ls : storage) : storage :=
  match fontName with
  | Some name =>
      if Js.truthy name then setItem LOCALSTORAGE_BOARD_CUSTOM_FONTS name ls
      else ls
  | None => ls
  end.

Definition addBoardCustomFont (fontFamilyName : string) (ls : storage) : storage :=
  let customFonts := getItem LOCALSTORAGE_BOARD_CUSTOM_FONTS ls in
  let arr := Js.split <$> customFonts in
  match arr with
  | Some a =>
      if Js.includes a fontFamilyName then ls
      else setItem LOCALSTORAGE_BOARD_CUSTOM_FONTS
             (Js.join (Js.concat a fontFamilyName)) ls
  | None => setItem LOCALSTORAGE_BOARD_CUSTOM_FONTS fontFamilyName ls
  end.

Definition saveLangCode (langCode : string) (ls : storage) : storage :=
  setItem LOCALSTORAGE_LANG_CODE langCode ls.

Definition loadLangCode (ls : storage) : option string :=
  getItem LOCALSTORAGE_LANG_CODE ls.

Definition loadBoardCustomFontSwitch (ls : storage) : option string :=
  getItem LOCALSTORAGE_BOARD_CUSTOM_FONT_SWITCH ls.

Definition saveBoardCustomFontSwitch (value : bool) (ls : storage) : storage :=
  setItem LOCALSTORAGE_BOARD_CUSTOM_FONT_SWITCH (Js.string_of_bool value) ls.

(** The stored custom-font list, as the array [addBoardCustomFont] sees;
    no list at all when nothing is stored. *)
Definition customFontList (ls : storage) : list string :=
  match loadBoardCustomFont ls with
  | Some fonts => Js.split fonts
  | None => []
  end.

(** How often [x] occurs in that list. *)
Definition occurrences (x : string) (ls : storage) : nat :=
  length (filter (fun w => w = x) (customFontList ls)).

End LocalStorage.

(** ** The canvas store used by [Handraw] *)

Module CanvasStore.

(** Modelled from the spec: [canvasIndexeddbStorage]
    ([@renderer/store/canvasIndexeddb]) is imported by [Handraw] but its
    source is not available.  The specification describes it as a mapping
    from document identifier to serialized content with at most one record
    per identifier: [get] retrieves the stored content or an empty
    sentinel, [put] upserts and overwrites unconditionally, and either
    fails with Storage-Unavailable when the backing store is inaccessible
    or with Invalid-Key when the identifier is malformed. *)
Record db : Type := Db {
  available : bool;
  records : gmap string string
}.

Definition empty : db := Db true ∅.

Section Adapter.

(** Which identifiers are well formed is left open by the specification. *)
Variable valid_key : string -> bool.

Definition check (id : string) (d : db) : option Js.error :=
  if negb (available d) then Some Js.StorageUnavailable
  else if negb (valid_key id) then Some Js.InvalidKey
  else None.

(** Modelled from the spec: [getCanvas(id)], the adapter's [get];
    [None] is the empty sentinel ([undefined]). *)
Definition getCanvas (id : string) (d : db) : Js.promise (option string) :=
  match check id d with
  | Some e => Js.Rejected e
  | None => Js.Fulfilled (records d !! id)
  end.

(** Modelled from the spec: [addOrUpdateCanvas(id, content)], the
    adapter's [put]. *)
Definition addOrUpdateCanvas (id content : string) (d : db) : db * Js.promise unit :=
  match check id d with
  | Some e => (d, Js.Rejected e)
  | None => (Db (available d) (<[id := content]> (records d)), Js.Fulfilled tt)
  end.

(** The store after a series of [put]s, oldest first. *)
Definition put_all (puts : list (string * string)) (d : db) : db :=
  foldl (fun acc p => fst (addOrUpdateCanvas (fst p) (snd p) acc)) d puts.

End Adapter.

End CanvasStore.

(** ** The [Handraw] component *)

Module Handraw.

(** [RevenoteFile], as far as the component reads it. *)
Record RevenoteFile : Type := File {
  id : string;
  name : string
}.

Definition DEFAULT_DATA_SOURCE : string := "{}".

(** [useDebounceFn(onChangeFn, { wait: 200 })]. *)
Definition DEBOUNCE_WAIT : nat := 200.

Section Component.

(** The document model that [Revedraw] hands to [onChange], and
    [JSON.stringify] on it. *)
Variable Data : Type.
Variable JSON_stringify : Data -> string.
Variable valid_key : string -> bool.

(** What the component holds between two events.
    - [file] is the current [file] prop and [dataSource] the
      [useState<string>()] cell.
    - [closure_file_id] is the [file.id] that [onChangeFn] reads: the
      callback is memoised with an empty dependency list, so it keeps
      the [file] of the render that created it.
    - [timer] is the slot of the debounced function: the time at which
      the pending call is due and the arguments of the latest call.
    - [now] is the clock in milliseconds, [store] the canvas store,
      [writes] the calls made to [addOrUpdateCanvas] so far (oldest
      first), [console] the lines written by [console.log], and
      [unhandled] the rejections of promises nobody observes. *)
Record state : Type := State {
  file : RevenoteFile;
  closure_file_id : string;
  dataSource : option string;
  timer : option (nat * Data);
  now : nat;
  store : CanvasStore.db;
  writes : list (string * string);
  console : list (string * Data);
  unhandled : list Js.error
}.

Definition set_file (f : RevenoteFile) (st : state) : state :=
  State f (closure_file_id st) (dataSource st) (timer st) (now st)
        (store st) (writes st) (console st) (unhandled st).

Definition setDataSource (v : string) (st : state) : state :=
  State (file st) (closure_file_id st) (Some v) (timer st) (now st)
        (store st) (writes st) (console st) (unhandled st).

Definition set_timer (t : option (nat * Data)) (st : state) : state :=
  State (file st) (closure_file_id st) (dataSource st) t (now st)
        (store st) (writes st) (console st) (unhandled st).

Definition set_now (n : nat) (st : state) : state :=
  State (file st) (closure_file_id st) (dataSource st) (timer st) n
        (store st) (writes st) (console st) (unhandled st).

Definition console_log (tag : string) (data : Data) (st : state) : state :=
  State (file st) (closure_file_id st) (dataSource st) (timer st) (now st)
        (store st) (writes st) (console st ++ [(tag, data)]) (unhandled st).

(** A call [canvasIndexeddbStorage.addOrUpdateCanvas(id, str)]; the
    promise it returns is handed back to the caller. *)
Definition call_addOrUpdateCanvas (i str : string) (st : state)
  : state * Js.promise unit :=
  let '(d, p) := CanvasStore.addOrUpdateCanvas valid_key i str (store st) in
  (State (file st) (closure_file_id st) (dataSource st) (timer st) (now st)
         d (writes st ++ [(i, str)]) (console st) (unhandled st), p).

(** A promise that is dropped by its caller: a rejection stays
    unhandled. *)
Definition drop {A} (r : state * Js.promise A) : state :=
  match r with
  | (st, Js.Rejected e) =>
      State (file st) (closure_file_id st) (dataSource st) (timer st) (now st)
            (store st) (writes st) (console st) (unhandled st ++ [e])
  | (st, _) => st
  end.

(** [getDataSource]: [await getCanvas(id)], then
    [setDataSource(data || DEFAULT_DATA_SOURCE)].  There is no
    [try]/[catch]: when the awaited promise rejects, the rest of the
    body is skipped and the returned promise rejects.  The awaited call
    is taken to settle before the next event reaches the component. *)
Definition getDataSource (i : string) (st : state) : state * Js.promise unit :=
  match CanvasStore.getCanvas valid_key i (store st) with
  | Js.Fulfilled data =>
      (setDataSource (Js.opt_or_default data DEFAULT_DATA_SOURCE) st,
       Js.Fulfilled tt)
  | Js.Rejected e => (st, Js.Rejected e)
  | Js.Pending => (st, Js.Pending)
  end.

(** [onChangeFn]: log, serialize, [await addOrUpdateCanvas(file.id, str)]
    with the [file] of its closure. *)
Definition onChangeFn (data : Data) (st : state) : state * Js.promise unit :=
  let st1 := console_log "--- onchange ---" data st in
  let str := JSON_stringify data in
  call_addOrUpdateCanvas (closure_file_id st1) str st1.

(** Modelled from the spec: [useDebounceFn] comes from the [ahooks]
    library, whose source is not available; the component takes only
    its [run].  The specification describes the debounce as a single
    pending-timer slot, reset on each new edit, that fires the callback
    on expiry: a change arriving within the window supersedes the
    earlier pending write and restarts the window.
    [onChangeDebounceFn] is that [run]. *)
Definition onChangeDebounceFn (data : Data) (st : state) : state :=
  set_timer (Some (now st + DEBOUNCE_WAIT, data)) st.

(** The effect [useEffect(() => { getDataSource(file.id) }, [file.id])]. *)
Definition effect (st : state) : state :=
  drop (getDataSource (id (file st)) st).

(** First render for [f] at time [t] over the store [d], followed by
    the effect. *)
Definition mount (f : RevenoteFile) (t : nat) (d : CanvasStore.db) : state :=
  effect (State f (id f) None None t d [] [] []).

(** A render with new props; the effect runs again when [file.id]
    differs from the one of the previous render.  Nothing else happens:
    the debounced function and its timer are left as they are. *)
Definition rerender (f : RevenoteFile) (st : state) : state :=
  let st1 := set_file f st in
  if String.eqb (id f) (id (file st)) then st1 else effect st1.

(** Modelled from the spec: the expiry of the debounce slot.  [dt]
    milliseconds pass; a pending call that has become due is made, with
    the arguments of the latest call, and the slot is emptied. *)
Definition elapse (dt : nat) (st : state) : state :=
  let st1 := set_now (now st + dt) st in
  match timer st1 with
  | Some (due, data) =>
      if due <=? now st1 then drop (onChangeFn data (set_timer None st1))
      else st1
  | None => st1
  end.

(** What the component returns:
    [dataSource ? <Revedraw dataSource=.. canvasName=.. /> : null]. *)
Record view : Type := Revedraw {
  view_dataSource : string;
  view_canvasName : string
}.

Definition render (st : state) : option view :=
  match dataSource st with
  | Some ds => if Js.truthy ds then Some (Revedraw ds (name (file st))) else None
  | None => None
  end.

(** The events the component reacts to. *)
Inductive event : Type :=
| Edit (data : Data)
| Switch (f : RevenoteFile)
| Elapse (dt : nat).

Definition step (st : state) (e : event) : state :=
  match e with
  | Edit data => onChangeDebounceFn data st
  | Switch f => rerender f st
  | Elapse dt => elapse dt st
  end.

Definition run (es : list event) (st : state) : state := foldl step st es.

(** A burst of edits: a first edit, then edits each [gap] milliseconds
    after the one before. *)
Definition burst (e1 : Data) (rest : list (nat * Data)) : list event :=
  Edit e1 :: flat_map (fun ge => [Elapse (fst ge); Edit (snd ge)]) rest.

Definition last_edit (e1 : Data) (rest : list (nat * Data)) : Data :=
  List.last (map snd rest) e1.

End Component.

End Handraw.

(** ** A concrete component

    Document models given by their JSON text, every identifier a valid key,
    and two documents to mount the component for. *)

Module Sample.

Definition Doc : Type := string.
Definition json (doc : Doc) : string := doc.
Definition any_key (_ : string) : bool := true.
Definition d1 : Handraw.RevenoteFile := Handraw.File "d1" "first".
Definition d2 : Handraw.RevenoteFile := Handraw.File "d2" "second".

End Sample.

(** ** Sequences of calls and of events *)

Module Runs.

(** The five keys of the settings service. *)
Definition setting_keys : list string :=
  [LocalStorage.LOCALSTORAGE_MENU_OPEN_KEYS;
   LocalStorage.LOCALSTORAGE_CURRENT_FILE_ID;
   LocalStorage.LOCALSTORAGE_BOARD_CUSTOM_FONTS;
   LocalStorage.LOCALSTORAGE_LANG_CODE;
   LocalStorage.LOCALSTORAGE_BOARD_CUSTOM_FONT_SWITCH].

(** [addBoardCustomFont] called for each of [names] in turn. *)
Definition add_all (names : list string) (ls : gmap string string)
  : gmap string string :=
  foldl (fun acc x => LocalStorage.addBoardCustomFont x acc) ls names.

Section Events.

Variable Data : Type.

(** Edits each followed by a pause: [(data, pause)]. *)
Definition spaced (l : list (Data * nat)) : list (Handraw.event Data) :=
  flat_map (fun dp => [Handraw.Edit Data (fst dp); Handraw.Elapse Data (snd dp)]) l.

(** How many of the events are edits. *)
Fixpoint edits (es : list (Handraw.event Data)) : nat :=
  match es with
  | [] => 0
  | Handraw.Edit _ _ :: es' => S (edits es')
  | _ :: es' => edits es'
  end.

(** Whether a debounced call is pending, as a number. *)
Definition pending (st : Handraw.state Data) : nat :=
  match Handraw.timer Data st with
  | Some _ => 1
  | None => 0
  end.

End Events.

End Runs.

(** * Properties *)

(** ** Splitting and joining on commas *)

Module JsFacts.
Import Js.

Lemma split_not_nil s : split s ≠ [].
Proof.
  destruct s as [|c s]; simpl; [done|].
  destruct (Ascii.eqb c comma); [done|].
  by destruct (split s).
Qed.

Lemma split_no_comma s : has_comma s = false → split s = [s].
Proof.
  induction s as [|c s IH]; simpl; [done|].
  destruct (Ascii.eqb c comma); [done|].
  intros H. by rewrite (IH H).
Qed.

Lemma split_app_comma a b :
  split (a +:+ String comma b) = split a ++ split b.
Proof.
  induction a as [|c a IH]; simpl.
  - done.
  - destruct (Ascii.eqb c comma); [by rewrite IH|].
    rewrite IH. pose proof (split_not_nil a) as Hn.
    by destruct (split a).
Qed.

Lemma join_split s : join (split s) = s.
Proof.
  induction s as [|c s IH]; simpl; [done|].
  destruct (Ascii.eqb c comma) eqn:Ec.
  - apply Ascii.eqb_eq in Ec as ->.
    pose proof (split_not_nil s) as Hn.
    destruct (split s) as [|w ws] eqn:Es; [done|].
    change (join (EmptyString :: w :: ws))
      with (String comma (join (w :: ws))).
    by rewrite IH.
  - pose proof (split_not_nil s) as Hn.
    destruct (split s) as [|w ws] eqn:Es; [done|].
    destruct ws as [|w' ws].
    + simpl in *. by rewrite IH.
    + change (join (String c w :: w' :: ws))
        with (String c (w +:+ String comma (join (w' :: ws)))).
      change (join (w :: w' :: ws))
        with (w +:+ String comma (join (w' :: ws))) in IH.
      by rewrite IH.
Qed.

Lemma append_assoc (a b c : string) : (a +:+ b) +:+ c = a +:+ (b +:+ c).
Proof.
  induction a as [|x a IH]; [done|].
  change (String x ((a +:+ b) +:+ c) = String x (a +:+ b +:+ c)).
  by rewrite IH.
Qed.

Lemma join_snoc arr x :
  arr ≠ [] → join (concat arr x) = join arr +:+ String comma x.
Proof.
  unfold concat.
  induction arr as [|w ws IH]; [done|]. intros _.
  destruct ws as [|w' ws]; [done|].
  change (join ((w :: w' :: ws) ++ [x]))
    with (w +:+ String comma (join ((w' :: ws) ++ [x]))).
  rewrite IH by done.
  change (join (w :: w' :: ws)) with (w +:+ String comma (join (w' :: ws))).
  by rewrite append_assoc.
Qed.

Lemma includes_true arr x : includes arr x = true ↔ x ∈ arr.
Proof.
  induction arr as [|w ws IH]; simpl.
  - split; [done|]. intros H. inversion H.
  - destruct (String.eqb w x) eqn:E.
    + apply String.eqb_eq in E as ->. split; [intros _; left | done].
    + apply String.eqb_neq in E. rewrite IH. split.
      * intros H. by right.
      * intros H. inversion H; subst; [done | assumption].
Qed.

Lemma includes_false arr x : includes arr x = false ↔ x ∉ arr.
Proof.
  rewrite <- includes_true. destruct (includes arr x); naive_solver.
Qed.

(** Splitting what [concat]-then-[join] stored gives the array back. *)
Lemma split_join_snoc s x :
  has_comma x = false →
  split (join (concat (split s) x)) = split s ++ [x].
Proof.
  intros Hx. rewrite join_snoc by apply split_not_nil.
  by rewrite join_split, split_app_comma, (split_no_comma x Hx).
Qed.

End JsFacts.

(** ** The settings service *)

Module LocalStorageFacts.
Import LocalStorage.

Lemma getItem_setItem k v ls : getItem k (setItem k v ls) = Some v.
Proof. apply lookup_insert_eq. Qed.

Lemma getItem_setItem_ne k k' v ls :
  k ≠ k' → getItem k' (setItem k v ls) = getItem k' ls.
Proof. intros H. by apply lookup_insert_ne. Qed.

(** A font that is already listed: nothing is written. *)
Lemma add_listed x ls :
  x ∈ customFontList ls → addBoardCustomFont x ls = ls.
Proof.
  unfold customFontList, loadBoardCustomFont, addBoardCustomFont.
  destruct (getItem LOCALSTORAGE_BOARD_CUSTOM_FONTS ls) as [fonts|]; simpl.
  - intros H. apply JsFacts.includes_true in H. by rewrite H.
  - intros H. inversion H.
Qed.

(** A font that is not listed: the stored string grows by [",x"], or
    becomes [x] when nothing was stored. *)
Lemma add_unlisted_stored x ls :
  x ∉ customFontList ls →
  loadBoardCustomFont (addBoardCustomFont x ls) =
    Some (match loadBoardCustomFont ls with
          | Some fonts => fonts +:+ String Js.comma x
          | None => x
          end).
Proof.
  unfold customFontList, loadBoardCustomFont, addBoardCustomFont.
  destruct (getItem LOCALSTORAGE_BOARD_CUSTOM_FONTS ls) as [fonts|]; simpl.
  - intros H. apply JsFacts.includes_false in H. rewrite H.
    rewrite getItem_setItem, JsFacts.join_snoc by apply JsFacts.split_not_nil.
    by rewrite JsFacts.join_split.
  - intros _. by rewrite getItem_setItem.
Qed.

Lemma add_unlisted_list x ls :
  Js.has_comma x = false →
  x ∉ customFontList ls →
  customFontList (addBoardCustomFont x ls) = customFontList ls ++ [x].
Proof.
  intros Hx Hn. unfold customFontList at 1.
  rewrite (add_unlisted_stored _ _ Hn).
  unfold customFontList.
  destruct (loadBoardCustomFont ls) as [fonts|]; simpl.
  - by rewrite JsFacts.split_app_comma, (JsFacts.split_no_comma x Hx).
  - by apply JsFacts.split_no_comma.
Qed.

Lemma add_then_listed x ls :
  Js.has_comma x = false → x ∈ customFontList (addBoardCustomFont x ls).
Proof.
  intros Hx. destruct (decide (x ∈ customFontList ls)) as [Hin|Hn].
  - by rewrite (add_listed _ _ Hin).
  - rewrite (add_unlisted_list _ _ Hx Hn). set_solver.
Qed.

Lemma add_idempotent x ls :
  Js.has_comma x = false →
  addBoardCustomFont x (addBoardCustomFont x ls) = addBoardCustomFont x ls.
Proof. intros Hx. apply add_listed. by apply add_then_listed. Qed.

Lemma count_unlisted (x : string) (l : list string) :
  x ∉ l → length (filter (fun w => w = x) l) = 0.
Proof.
  induction l as [|w l IH]; [done|]. intros H.
  rewrite filter_cons. destruct (decide (w = x)) as [->|_].
  - exfalso. apply H. left.
  - apply IH. intros Hin. apply H. by right.
Qed.

Lemma count_listed (x : string) (l : list string) :
  x ∈ l → 1 ≤ length (filter (fun w => w = x) l).
Proof.
  induction l as [|w l IH]; intros H; [inversion H|].
  rewrite filter_cons. destruct (decide (w = x)) as [->|Hne]; simpl; [lia|].
  apply IH. inversion H; subst; [done | assumption].
Qed.

(** How often [x] is listed after two calls with [x]: what was there,
    but at least once. *)
Lemma occurrences_add_twice x ls :
  Js.has_comma x = false →
  occurrences x (addBoardCustomFont x (addBoardCustomFont x ls)) =
    Nat.max 1 (occurrences x ls).
Proof.
  intros Hx. rewrite (add_idempotent _ _ Hx). unfold occurrences.
  destruct (decide (x ∈ customFontList ls)) as [Hin|Hn].
  - rewrite (add_listed _ _ Hin). pose proof (count_listed _ _ Hin). lia.
  - rewrite (add_unlisted_list _ _ Hx Hn), filter_app, length_app.
    rewrite (count_unlisted _ _ Hn). simpl.
    rewrite filter_cons. by destruct (decide (x = x)).
Qed.

End LocalStorageFacts.

Section SettingsClaims.
Import LocalStorage LocalStorageFacts.

(** C3 (what the code does): the promise returned by [loadOpenKeys] never
    resolves with a value, whatever is stored and however [JSON.parse]
    behaves; on a store with no open keys saved it stays pending, it does
    not resolve with the empty list. *)
Theorem loadOpenKeys_never_resolves
    (JSON_parse : string → option (list string)) (ls : storage) :
  Js.settled_value (loadOpenKeys JSON_parse ls) = None ∧
  loadOpenKeys JSON_parse ∅ = Js.Pending.
Proof.
  split; [|done].
  unfold loadOpenKeys, loadOpenKeys_executor, Js.new_Promise; simpl.
  destruct (getItem LOCALSTORAGE_MENU_OPEN_KEYS ls) as [localStr|]; [|done].
  destruct (Js.truthy localStr); [|done].
  by destruct (JSON_parse localStr).
Qed.

(** C4 (amended): for every font name [s] without a comma in it and every
    stored state, [addBoardCustomFont s] writes nothing when [s] is
    already an element of the stored comma-joined list, and otherwise
    appends [s] to it (the stored string grows by a comma and [s], or
    becomes [s] when nothing was stored); after the call the list
    contains [s], and a second call with [s] leaves the store unchanged. *)
Theorem addBoardCustomFont_idempotent_union (s : string) (ls : storage) :
  Js.has_comma s = false →
  (s ∈ customFontList ls → addBoardCustomFont s ls = ls) ∧
  (s ∉ customFontList ls →
     loadBoardCustomFont (addBoardCustomFont s ls) =
       Some (match loadBoardCustomFont ls with
             | Some fonts => fonts +:+ String Js.comma s
             | None => s
             end) ∧
     customFontList (addBoardCustomFont s ls) = customFontList ls ++ [s]) ∧
  s ∈ customFontList (addBoardCustomFont s ls) ∧
  addBoardCustomFont s (addBoardCustomFont s ls) = addBoardCustomFont s ls.
Proof.
  intros Hs. split; [apply add_listed|]. split.
  - intros Hn. split; [by apply add_unlisted_stored | by apply add_unlisted_list].
  - split; [by apply add_then_listed | by apply add_idempotent].
Qed.

Lemma addBoardCustomFont_idempotent_union_witness :
  let ls : storage := {[LOCALSTORAGE_BOARD_CUSTOM_FONTS := "Times,Courier"]} in
  Js.has_comma "Arial" = false ∧
  loadBoardCustomFont (addBoardCustomFont "Arial" ls) = Some "Times,Courier,Arial" ∧
  addBoardCustomFont "Arial" (addBoardCustomFont "Arial" ls) =
    addBoardCustomFont "Arial" ls.
Proof.
  intros ls. split; [reflexivity|]. split; [reflexivity|].
  apply (addBoardCustomFont_idempotent_union "Arial" ls). reflexivity.
Defined.

(** C4 (as stated, refuted): with the font name ["a,b"] on an empty store,
    the list stored by the first call does not contain the name, and the
    second call appends it again. *)
Lemma addBoardCustomFont_comma_not_idempotent :
  let ls1 := addBoardCustomFont "a,b" ∅ in
  customFontList ls1 = ["a"; "b"] ∧
  ("a,b" ∉ customFontList ls1) ∧
  loadBoardCustomFont ls1 = Some "a,b" ∧
  loadBoardCustomFont (addBoardCustomFont "a,b" ls1) = Some "a,b,a,b" ∧
  addBoardCustomFont "a,b" ls1 ≠ ls1.
Proof.
  intros ls1. split; [reflexivity|]. split.
  - intros H. apply JsFacts.includes_true in H. vm_compute in H. discriminate.
  - split; [reflexivity|]. split; [reflexivity|].
    intros H. apply (f_equal loadBoardCustomFont) in H.
    vm_compute in H. discriminate.
Qed.

(** C5 (amended): from every stored state whose custom-font list holds
    "Arial" at most once, two calls of [addBoardCustomFont "Arial"] in
    succession leave a stored list in which "Arial" occurs exactly once. *)
Theorem addBoardCustomFont_Arial_twice (ls : storage) :
  occurrences "Arial" ls ≤ 1 →
  occurrences "Arial"
    (addBoardCustomFont "Arial" (addBoardCustomFont "Arial" ls)) = 1.
Proof.
  intros H. rewrite occurrences_add_twice by reflexivity. lia.
Qed.

Lemma addBoardCustomFont_Arial_twice_witness :
  let ls : storage := {[LOCALSTORAGE_BOARD_CUSTOM_FONTS := "Times,Arial"]} in
  occurrences "Arial" ls ≤ 1 ∧
  occurrences "Arial"
    (addBoardCustomFont "Arial" (addBoardCustomFont "Arial" ls)) = 1.
Proof.
  intros ls. split; [vm_compute; lia|].
  apply (addBoardCustomFont_Arial_twice ls). vm_compute. lia.
Defined.

(** C5 (as stated, refuted): from the stored list "Arial,Arial" both calls
    write nothing and "Arial" still occurs twice. *)
Lemma addBoardCustomFont_Arial_twice_duplicates :
  let ls : storage := {[LOCALSTORAGE_BOARD_CUSTOM_FONTS := "Arial,Arial"]} in
  occurrences "Arial"
    (addBoardCustomFont "Arial" (addBoardCustomFont "Arial" ls)) = 2.
Proof. reflexivity. Qed.

(** C7 (amended): [saveBoardCustomFont v] stores [v] for every non-empty
    string [v] and writes nothing for [null] and for the empty string;
    [saveLangCode], [saveBoardCustomFontSwitch] and [saveOpenKeys]
    overwrite the stored value unconditionally (with the argument, its
    string form, its JSON form), and [saveCurrentFileId] overwrites it
    with the argument or, for a falsy one, the empty string. *)
Theorem settings_writes (ls : storage) (v : string) :
  v ≠ EmptyString →
  loadBoardCustomFont (saveBoardCustomFont (Some v) ls) = Some v ∧
  saveBoardCustomFont None ls = ls ∧
  saveBoardCustomFont (Some EmptyString) ls = ls ∧
  (∀ langCode, loadLangCode (saveLangCode langCode ls) = Some langCode) ∧
  (∀ value, loadBoardCustomFontSwitch (saveBoardCustomFontSwitch value ls) =
              Some (Js.string_of_bool value)) ∧
  (∀ JSON_stringify openKeys,
      getItem LOCALSTORAGE_MENU_OPEN_KEYS (saveOpenKeys JSON_stringify openKeys ls) =
        Some (JSON_stringify openKeys)) ∧
  (∀ fileId, loadCurrentFileId (saveCurrentFileId fileId ls) =
               Some (Js.or_default fileId EmptyString)).
Proof.
  intros Hv. split.
  - unfold saveBoardCustomFont, loadBoardCustomFont.
    destruct v; [done|]. simpl. apply getItem_setItem.
  - repeat split; intros; apply getItem_setItem.
Qed.

Lemma settings_writes_witness :
  "Arial" ≠ EmptyString ∧
  loadBoardCustomFont (saveBoardCustomFont (Some "Arial") ∅) = Some "Arial".
Proof.
  split; [discriminate|].
  apply (settings_writes ∅ "Arial"). discriminate.
Defined.

(** C7 (as stated, refuted): over a store that holds "Arial",
    [saveBoardCustomFont] with the empty string and with [null] leave
    "Arial" in place; the argument is not stored. *)
Lemma saveBoardCustomFont_falsy_not_stored :
  let ls : storage := {[LOCALSTORAGE_BOARD_CUSTOM_FONTS := "Arial"]} in
  loadBoardCustomFont (saveBoardCustomFont (Some EmptyString) ls) = Some "Arial" ∧
  loadBoardCustomFont (saveBoardCustomFont (Some EmptyString) ls) ≠ Some EmptyString ∧
  loadBoardCustomFont (saveBoardCustomFont None ls) = Some "Arial".
Proof. intros ls. split; [reflexivity|]. split; [discriminate | reflexivity]. Qed.

(** C10: [saveCurrentFileId] called with [null] or [undefined] stores the
    empty string under the current-file-id key; [loadCurrentFileId] then
    returns the empty string, not [null]. *)
Theorem saveCurrentFileId_null_stores_empty (ls : storage) :
  loadCurrentFileId (saveCurrentFileId Js.Null ls) = Some EmptyString ∧
  loadCurrentFileId (saveCurrentFileId Js.Undefined ls) = Some EmptyString ∧
  getItem LOCALSTORAGE_CURRENT_FILE_ID (saveCurrentFileId Js.Null ls) = Some EmptyString.
Proof. repeat split; apply getItem_setItem. Qed.

End SettingsClaims.

(** ** The canvas store *)

Module CanvasStoreFacts.
Import CanvasStore.

Section Adapter.
Variable valid_key : string → bool.

Lemma put_available i c d :
  available (addOrUpdateCanvas valid_key i c d).1 = available d.
Proof. unfold addOrUpdateCanvas. by destruct (check valid_key i d). Qed.

Lemma put_lookup_ne i j c d :
  i ≠ j →
  records (addOrUpdateCanvas valid_key i c d).1 !! j = records d !! j.
Proof.
  intros H. unfold addOrUpdateCanvas.
  destruct (check valid_key i d); simpl; [done|].
  by rewrite lookup_insert_ne.
Qed.

Lemma put_all_available puts d :
  available (put_all valid_key puts d) = available d.
Proof.
  revert d. induction puts as [|[i c] puts IH]; intros d; [done|].
  unfold put_all in *. simpl. by rewrite IH, put_available.
Qed.

(** An identifier that was never [put] keeps the record it had. *)
Lemma put_all_lookup_other puts j d :
  j ∉ puts.*1 →
  records (put_all valid_key puts d) !! j = records d !! j.
Proof.
  revert d. induction puts as [|[i c] puts IH]; intros d Hj; [done|].
  unfold put_all in *. simpl in *.
  rewrite IH by (intros H; apply Hj; by right).
  apply put_lookup_ne. intros ->. apply Hj. left.
Qed.

Lemma check_ok i d :
  available d = true → valid_key i = true → check valid_key i d = None.
Proof. intros Ha Hv. unfold check. by rewrite Ha, Hv. Qed.

End Adapter.

End CanvasStoreFacts.

(** ** The editor binding *)

Module HandrawFacts.
Import Handraw.

Section Component.
Variable Data : Type.
Variable JSON_stringify : Data → string.
Variable valid_key : string → bool.

Abbreviation state := (state Data).
Abbreviation run := (run Data JSON_stringify valid_key).
Abbreviation elapse := (elapse Data JSON_stringify valid_key).
Abbreviation rerender := (rerender Data valid_key).
Abbreviation getDataSource := (getDataSource Data valid_key).
Abbreviation onChangeFn := (onChangeFn Data JSON_stringify valid_key).

Lemma run_app es1 es2 (st : state) :
  run (es1 ++ es2) st = run es2 (run es1 st).
Proof. apply foldl_app. Qed.

Lemma set_now_same (st : state) : set_now Data (now Data st) st = st.
Proof. by destruct st. Qed.

(** Hydration touches the [dataSource] cell and the list of unobserved
    rejections, nothing else. *)
Lemma effect_frame (st : state) :
  let st' := effect Data valid_key st in
  file Data st' = file Data st ∧
  closure_file_id Data st' = closure_file_id Data st ∧
  timer Data st' = timer Data st ∧
  now Data st' = now Data st ∧
  store Data st' = store Data st ∧
  writes Data st' = writes Data st ∧
  console Data st' = console Data st.
Proof.
  unfold effect, Handraw.getDataSource.
  by destruct (CanvasStore.getCanvas valid_key (id (file Data st)) (store Data st)).
Qed.

(** A render with new props leaves the debounce slot, the clock, the
    store and the closure of [onChangeFn] alone. *)
Lemma rerender_frame f (st : state) :
  let st' := rerender f st in
  file Data st' = f ∧
  closure_file_id Data st' = closure_file_id Data st ∧
  timer Data st' = timer Data st ∧
  now Data st' = now Data st ∧
  store Data st' = store Data st ∧
  writes Data st' = writes Data st ∧
  console Data st' = console Data st.
Proof.
  unfold Handraw.rerender.
  destruct (String.eqb (id f) (id (file Data st))); [done|].
  pose proof (effect_frame (set_file Data f st)) as H. simpl in H.
  destruct H as (-> & -> & -> & -> & -> & -> & ->). done.
Qed.

(** Before the pending call is due, time passing only moves the clock. *)
Lemma elapse_early dt due data (st : state) :
  timer Data st = Some (due, data) →
  now Data st + dt < due →
  elapse dt st = set_now Data (now Data st + dt) st.
Proof.
  intros Ht Hlt. unfold Handraw.elapse. simpl. rewrite Ht.
  destruct (Nat.leb_spec due (now Data st + dt)); [lia | done].
Qed.

(** Once it is due, the call is made with the latest arguments. *)
Lemma elapse_due dt due data (st : state) :
  timer Data st = Some (due, data) →
  due ≤ now Data st + dt →
  elapse dt st =
    drop Data (onChangeFn data
                 (set_timer Data None (set_now Data (now Data st + dt) st))).
Proof.
  intros Ht Hle. unfold Handraw.elapse. simpl. rewrite Ht.
  destruct (Nat.leb_spec due (now Data st + dt)); [done | lia].
Qed.

Lemma elapse_idle dt (st : state) :
  timer Data st = None →
  elapse dt st = set_now Data (now Data st + dt) st.
Proof. intros Ht. unfold Handraw.elapse. simpl. by rewrite Ht. Qed.

(** What one call of [onChangeFn] whose promise is dropped does. *)
Lemma onChangeFn_frame data (st : state) :
  let st' := drop Data (onChangeFn data st) in
  writes Data st' =
    writes Data st ++ [(closure_file_id Data st, JSON_stringify data)] ∧
  store Data st' =
    (CanvasStore.addOrUpdateCanvas valid_key (closure_file_id Data st)
       (JSON_stringify data) (store Data st)).1 ∧
  console Data st' = console Data st ++ [("--- onchange ---"%string, data)] ∧
  timer Data st' = timer Data st ∧
  now Data st' = now Data st ∧
  closure_file_id Data st' = closure_file_id Data st ∧
  file Data st' = file Data st ∧
  dataSource Data st' = dataSource Data st.
Proof.
  unfold Handraw.onChangeFn, call_addOrUpdateCanvas. simpl.
  destruct (CanvasStore.addOrUpdateCanvas valid_key (closure_file_id Data st)
              (JSON_stringify data) (store Data st)) as [d p].
  by destruct p.
Qed.

Lemma last_cons (l : list Data) x d : List.last (x :: l) d = List.last l x.
Proof.
  revert x d. induction l as [|y l IH]; intros x d; [done|].
  change (List.last (x :: y :: l) d) with (List.last (y :: l) d).
  by rewrite !IH.
Qed.

Lemma last_edit_cons e1 g e rest :
  last_edit Data e1 ((g, e) :: rest) = last_edit Data e rest.
Proof. unfold last_edit. apply last_cons. Qed.

(** A burst of edits, each less than the window after the one before,
    makes no call: it leaves the slot holding the last edit, due one
    window after it. *)
Lemma run_burst e1 rest (st : state) :
  Forall (fun ge => ge.1 < DEBOUNCE_WAIT) rest →
  run (burst Data e1 rest) st =
    set_timer Data
      (Some (now Data st + sum_list (rest.*1) + DEBOUNCE_WAIT,
             last_edit Data e1 rest))
      (set_now Data (now Data st + sum_list (rest.*1)) st).
Proof.
  revert e1 st. induction rest as [|[g e] rest IH]; intros e1 st Hgaps.
  - simpl. unfold onChangeDebounceFn.
    rewrite Nat.add_0_r. by rewrite set_now_same.
  - apply Forall_cons in Hgaps as [Hg Hgaps]. simpl in Hg.
    change (run (burst Data e1 ((g, e) :: rest)) st)
      with (run (burst Data e rest)
              (elapse g (onChangeDebounceFn Data e1 st))).
    rewrite (elapse_early g (now Data st + DEBOUNCE_WAIT) e1)
      by (try done; simpl; lia).
    rewrite (IH e _ Hgaps), last_edit_cons.
    simpl. rewrite !Nat.add_assoc. by destruct st.
Qed.

End Component.

End HandrawFacts.

Section HandrawClaims.
Import Handraw HandrawFacts.

Variable Data : Type.
Variable JSON_stringify : Data → string.
Variable valid_key : string → bool.

Abbreviation state := (state Data).
Abbreviation run := (run Data JSON_stringify valid_key).
Abbreviation rerender := (rerender Data valid_key).
Abbreviation getDataSource := (getDataSource Data valid_key).
Abbreviation onChangeFn := (onChangeFn Data JSON_stringify valid_key).
Abbreviation mount := (mount Data valid_key).
Abbreviation put := (CanvasStore.addOrUpdateCanvas valid_key).


(** C2: for edits e1..en on one document, each made less than the 200 ms
    window after the one before, no write is made while the burst lasts
    or before the window after en has elapsed; once it has, exactly one
    call of [addOrUpdateCanvas] has been added, it carries the serialized
    content of en, the slot is empty and no further write follows. *)
Theorem debounce_burst_single_write (st : state) e1 rest w :
  Forall (fun ge => ge.1 < DEBOUNCE_WAIT) rest →
  DEBOUNCE_WAIT ≤ w →
  let en := last_edit Data e1 rest in
  let st' := run (burst Data e1 rest ++ [Elapse Data w]) st in
  writes Data (run (burst Data e1 rest) st) = writes Data st ∧
  (∀ w', w' < DEBOUNCE_WAIT →
     writes Data (run (burst Data e1 rest ++ [Elapse Data w']) st) =
       writes Data st) ∧
  writes Data st' =
    writes Data st ++ [(closure_file_id Data st, JSON_stringify en)] ∧
  store Data st' =
    (put (closure_file_id Data st) (JSON_stringify en) (store Data st)).1 ∧
  timer Data st' = None ∧
  (∀ w'', writes Data (run [Elapse Data w''] st') = writes Data st').
Proof.
  intros Hgaps Hw en st'.
  pose proof (run_burst Data JSON_stringify valid_key e1 rest st Hgaps) as Hb.
  split; [by rewrite Hb|]. split.
  - intros w' Hw'. rewrite run_app, Hb.
    change (run [Elapse Data w'] ?s)
      with (elapse Data JSON_stringify valid_key w' s).
    erewrite elapse_early; [done | done | simpl; lia].
  - subst st'. rewrite run_app, Hb.
    change (run [Elapse Data w] ?s)
      with (elapse Data JSON_stringify valid_key w s).
    erewrite elapse_due; [| done | simpl; lia].
    match goal with
    | |- context [drop Data (onChangeFn ?d ?s)] =>
        destruct (onChangeFn_frame Data JSON_stringify valid_key d s)
          as (Hw' & Hs' & _ & Ht' & _)
    end.
    simpl in *. rewrite Hw', Hs', Ht'. repeat split; try done.
    intros w''.
    change (run [Elapse Data w''] ?s)
      with (elapse Data JSON_stringify valid_key w'' s).
    by rewrite elapse_idle.
Qed.


(** C8: for a document identifier that was never [put], [getCanvas]
    resolves with the empty sentinel, and activating the component for it
    sets [dataSource] to the default ['{}'], which is what the editor is
    rendered with. *)
Theorem hydrate_absent (puts : list (string * string)) f t :
  valid_key (id f) = true →
  id f ∉ puts.*1 →
  let d := CanvasStore.put_all valid_key puts CanvasStore.empty in
  CanvasStore.getCanvas valid_key (id f) d = Js.Fulfilled None ∧
  dataSource Data (mount f t d) = Some DEFAULT_DATA_SOURCE ∧
  render Data (mount f t d) = Some (Revedraw DEFAULT_DATA_SOURCE (name f)).
Proof.
  intros Hv Hn d.
  assert (CanvasStore.getCanvas valid_key (id f) d = Js.Fulfilled None) as Hg.
  { subst d. unfold CanvasStore.getCanvas.
    rewrite CanvasStoreFacts.check_ok;
      [| by rewrite CanvasStoreFacts.put_all_available | done].
    by rewrite CanvasStoreFacts.put_all_lookup_other. }
  split; [done|].
  unfold Handraw.mount, effect, Handraw.getDataSource. simpl. by rewrite Hg.
Qed.

(** C9: when the store answers the read with a falsy value, the empty
    string as well as nothing at all, hydration sets [dataSource] to the
    default ['{}'] and the editor is rendered with it; a stored empty
    string is not rendered as it is. *)
Theorem hydrate_falsy (st : state) i data :
  CanvasStore.getCanvas valid_key i (store Data st) = Js.Fulfilled data →
  data = None ∨ data = Some EmptyString →
  let st' := (getDataSource i st).1 in
  dataSource Data st' = Some DEFAULT_DATA_SOURCE ∧
  render Data st' = Some (Revedraw DEFAULT_DATA_SOURCE (name (file Data st))) ∧
  view_dataSource <$> render Data st' ≠ Some EmptyString.
Proof.
  intros Hg Hd. unfold Handraw.getDataSource. rewrite Hg.
  by destruct Hd as [-> | ->].
Qed.

End HandrawClaims.

(** ** The claims on the sample component *)

Section HandrawInstances.
Import Handraw Sample.



Lemma debounce_burst_single_write_witness :
  let st := mount Doc any_key d1 0 CanvasStore.empty in
  let rest := [(50, "b"); (199, "c")]%string in
  Forall (fun ge : nat * Doc => ge.1 < DEBOUNCE_WAIT) rest ∧
  DEBOUNCE_WAIT ≤ 200 ∧
  writes Doc
    (run Doc json any_key (burst Doc "a"%string rest ++ [Elapse Doc 200]) st) =
    [("d1", "c")]%string.
Proof.
  intros st rest.
  assert (Forall (fun ge : nat * Doc => ge.1 < DEBOUNCE_WAIT) rest) as Hg
    by (repeat constructor; unfold DEBOUNCE_WAIT; simpl; lia).
  assert (DEBOUNCE_WAIT ≤ 200) as Hw by (unfold DEBOUNCE_WAIT; lia).
  split; [exact Hg|]. split; [exact Hw|].
  exact (proj1 (proj2 (proj2
           (debounce_burst_single_write Doc json any_key st "a"%string
              rest 200 Hg Hw)))).
Defined.



Lemma hydrate_absent_witness :
  let puts := [("d2", "{}")]%string in
  any_key (id d1) = true ∧
  (id d1 ∉ puts.*1) ∧
  render Doc
    (mount Doc any_key d1 0 (CanvasStore.put_all any_key puts CanvasStore.empty)) =
    Some (Revedraw "{}" "first").
Proof.
  intros puts.
  assert (id d1 ∉ puts.*1) as Hn.
  { intros H. apply list_elem_of_In in H. simpl in H.
    destruct H as [H|[]]. discriminate H. }
  split; [reflexivity|]. split; [exact Hn|].
  exact (proj2 (proj2 (hydrate_absent Doc any_key puts d1 0 eq_refl Hn))).
Defined.

Lemma hydrate_falsy_witness :
  let st := mount Doc any_key d2 0
              (CanvasStore.Db true {["d1"%string := EmptyString]}) in
  CanvasStore.getCanvas any_key "d1" (store Doc st) =
    Js.Fulfilled (Some EmptyString) ∧
  (@None string = None ∨ Some EmptyString = Some EmptyString) ∧
  dataSource Doc (getDataSource Doc any_key "d1" st).1 = Some "{}"%string.
Proof.
  intros st. split; [reflexivity|]. split; [right; reflexivity|].
  exact (proj1 (hydrate_falsy Doc any_key st "d1"%string (Some EmptyString)
                  eq_refl (or_intror eq_refl))).
Defined.

End HandrawInstances.


(** * Further properties of the settings service *)

Module SettingsMoreFacts.
Import Js LocalStorage LocalStorageFacts.

Lemma split_join (l : list string) :
  l ≠ [] → Forall (fun w => has_comma w = false) l → split (join l) = l.
Proof.
  induction l as [|w ws IH]; [done|]. intros _ Hl.
  apply Forall_cons in Hl as [Hw Hws].
  destruct ws as [|w' ws]; [by apply JsFacts.split_no_comma|].
  change (join (w :: w' :: ws)) with (w +:+ String comma (join (w' :: ws))).
  rewrite JsFacts.split_app_comma, (JsFacts.split_no_comma w Hw).
  by rewrite IH.
Qed.

(** Whatever the name, the list read back after [addBoardCustomFont]
    starts with the list that was there. *)
Lemma add_extends x ls :
  customFontList ls `prefix_of` customFontList (addBoardCustomFont x ls).
Proof.
  unfold customFontList, loadBoardCustomFont, addBoardCustomFont.
  destruct (getItem LOCALSTORAGE_BOARD_CUSTOM_FONTS ls) as [fonts|] eqn:E; simpl.
  - destruct (includes (split fonts) x).
    + by rewrite E.
    + rewrite getItem_setItem, JsFacts.join_snoc by apply JsFacts.split_not_nil.
      rewrite JsFacts.join_split, JsFacts.split_app_comma.
      by apply prefix_app_r.
  - apply prefix_nil.
Qed.

Lemma add_elem_of x z ls :
  has_comma x = false →
  z ∈ customFontList (addBoardCustomFont x ls) ↔ z = x ∨ z ∈ customFontList ls.
Proof.
  intros Hx. destruct (decide (x ∈ customFontList ls)) as [Hin|Hn].
  - rewrite (add_listed _ _ Hin). split; [by right|]. by intros [->|H].
  - rewrite (add_unlisted_list _ _ Hx Hn), elem_of_app, list_elem_of_singleton.
    tauto.
Qed.

Lemma add_NoDup x ls :
  has_comma x = false →
  NoDup (customFontList ls) → NoDup (customFontList (addBoardCustomFont x ls)).
Proof.
  intros Hx Hnd. destruct (decide (x ∈ customFontList ls)) as [Hin|Hn].
  - by rewrite (add_listed _ _ Hin).
  - rewrite (add_unlisted_list _ _ Hx Hn). apply NoDup_app.
    split; [done|]. split; [|apply NoDup_singleton].
    intros y Hy Hy'. apply list_elem_of_singleton in Hy' as ->. done.
Qed.

End SettingsMoreFacts.

Section SettingsExtras.
Import Js LocalStorage LocalStorageFacts SettingsMoreFacts Runs.

(** X1: every writer of the service changes at most the entry under its own
    key; the rest of [localStorage] is left as it was, the other four
    settings included, since the five keys are pairwise distinct. *)
Theorem settings_writers_frame (ls : storage) :
  NoDup setting_keys ∧
  (∀ JSON_stringify openKeys,
      delete LOCALSTORAGE_MENU_OPEN_KEYS (saveOpenKeys JSON_stringify openKeys ls) =
        delete LOCALSTORAGE_MENU_OPEN_KEYS ls) ∧
  (∀ fileId, delete LOCALSTORAGE_CURRENT_FILE_ID (saveCurrentFileId fileId ls) =
               delete LOCALSTORAGE_CURRENT_FILE_ID ls) ∧
  (∀ fontName,
      delete LOCALSTORAGE_BOARD_CUSTOM_FONTS (saveBoardCustomFont fontName ls) =
        delete LOCALSTORAGE_BOARD_CUSTOM_FONTS ls) ∧
  (∀ fontFamilyName,
      delete LOCALSTORAGE_BOARD_CUSTOM_FONTS (addBoardCustomFont fontFamilyName ls) =
        delete LOCALSTORAGE_BOARD_CUSTOM_FONTS ls) ∧
  (∀ langCode, delete LOCALSTORAGE_LANG_CODE (saveLangCode langCode ls) =
                 delete LOCALSTORAGE_LANG_CODE ls) ∧
  (∀ value,
      delete LOCALSTORAGE_BOARD_CUSTOM_FONT_SWITCH (saveBoardCustomFontSwitch value ls) =
        delete LOCALSTORAGE_BOARD_CUSTOM_FONT_SWITCH ls).
Proof.
  split.
  { apply (bool_decide_unpack _). vm_compute. reflexivity. }
  repeat split; intros.
  - apply delete_insert_eq.
  - apply delete_insert_eq.
  - unfold saveBoardCustomFont. destruct fontName as [n|]; [|done].
    destruct (truthy n); [apply delete_insert_eq | done].
  - unfold addBoardCustomFont.
    destruct (getItem LOCALSTORAGE_BOARD_CUSTOM_FONTS ls) as [fonts|]; simpl.
    + destruct (includes (split fonts) fontFamilyName);
        [done | apply delete_insert_eq].
    + apply delete_insert_eq.
  - apply delete_insert_eq.
  - apply delete_insert_eq.
Qed.

(** X2: what [loadBoardCustomFontSwitch] gives back after
    [saveBoardCustomFontSwitch value] is a string that is truthy for both
    values of the flag; it is ["true"] exactly when the flag was [true]. *)
Theorem font_switch_round_trip (value : bool) (ls : storage) :
  ∃ s, loadBoardCustomFontSwitch (saveBoardCustomFontSwitch value ls) = Some s ∧
       truthy s = true ∧
       (s = "true"%string ↔ value = true).
Proof.
  exists (string_of_bool value). split; [apply getItem_setItem|].
  by destruct value.
Qed.

(** X3: no sequence of [addBoardCustomFont] calls, whatever the names,
    removes or reorders what was listed: the list read back starts with
    the list that was there before. *)
Theorem add_all_extends (names : list string) (ls : storage) :
  customFontList ls `prefix_of` customFontList (add_all names ls).
Proof.
  revert ls. induction names as [|x names IH]; intros ls; [done|].
  unfold add_all in *. simpl.
  etrans; [apply (add_extends x) | apply IH].
Qed.

(** X4: after [addBoardCustomFont] has been called for each of a series of
    names without commas, the names listed are those that were listed
    before together with the names given. *)
Theorem add_all_elem_of (names : list string) (ls : storage) (z : string) :
  Forall (fun x => has_comma x = false) names →
  z ∈ customFontList (add_all names ls) ↔ z ∈ customFontList ls ∨ z ∈ names.
Proof.
  revert ls. induction names as [|x names IH]; intros ls Hn.
  - split; [by left|]. intros [H|H]; [done | inversion H].
  - apply Forall_cons in Hn as [Hx Hn]. unfold add_all in *. simpl.
    rewrite (IH _ Hn), (add_elem_of _ _ _ Hx), elem_of_cons. tauto.
Qed.

(** X5: a list without duplicates stays without duplicates under any
    series of [addBoardCustomFont] calls with names without commas; from
    a store with no font list, each name ends up listed once. *)
Theorem add_all_NoDup (names : list string) (ls : storage) :
  Forall (fun x => has_comma x = false) names →
  NoDup (customFontList ls) →
  NoDup (customFontList (add_all names ls)).
Proof.
  revert ls. induction names as [|x names IH]; intros ls Hn Hnd; [done|].
  apply Forall_cons in Hn as [Hx Hn]. unfold add_all in *. simpl.
  apply (IH _ Hn). by apply add_NoDup.
Qed.

(** X6: the comma-joined format round-trips through [saveBoardCustomFont]:
    saving the joined form of a non-empty list of names without commas
    (other than the list of one empty name, whose joined form is falsy and
    is not stored) makes that list the one read back. *)
Theorem saveBoardCustomFont_list_round_trip (l : list string) (ls : storage) :
  Forall (fun w => has_comma w = false) l →
  truthy (join l) = true →
  customFontList (saveBoardCustomFont (Some (join l)) ls) = l.
Proof.
  intros Hl Ht. unfold customFontList, saveBoardCustomFont, loadBoardCustomFont.
  rewrite Ht, getItem_setItem. apply split_join; [|done].
  by intros ->.
Qed.

(** X7: [loadOpenKeys] returns a rejected promise exactly when a non-empty
    string is stored under the open-keys key and [JSON.parse] throws on
    it; the rejection is then that [SyntaxError].  In every other case the
    promise is pending. *)
Theorem loadOpenKeys_rejects_iff
    (JSON_parse : string → option (list string)) (ls : storage) :
  (∀ e, loadOpenKeys JSON_parse ls = Rejected e ↔
        e = SyntaxError ∧
        ∃ s, getItem LOCALSTORAGE_MENU_OPEN_KEYS ls = Some s ∧
             truthy s = true ∧ JSON_parse s = None) ∧
  (loadOpenKeys JSON_parse ls = Pending ∨
   loadOpenKeys JSON_parse ls = Rejected SyntaxError).
Proof.
  unfold loadOpenKeys, loadOpenKeys_executor, new_Promise; simpl.
  destruct (getItem LOCALSTORAGE_MENU_OPEN_KEYS ls) as [s|].
  - destruct (truthy s) eqn:Et.
    + destruct (JSON_parse s) eqn:Ep.
      * split; [|by left]. intros e. split; [done|].
        intros (_ & s' & Hs & _ & Hp). congruence.
      * split; [|by right]. intros e. split.
        -- intros [= <-]. split; [done|]. by exists s.
        -- by intros [-> _].
    + split; [|by left]. intros e. split; [done|].
      intros (_ & s' & Hs & Ht' & _). congruence.
  - split; [|by left]. intros e. split; [done|].
    by intros (_ & s' & Hs & _).
Qed.

(** X8: when [JSON.parse] undoes [JSON.stringify] on the keys saved and
    their JSON text is not empty, the executor body of [loadOpenKeys]
    after [saveOpenKeys openKeys] does compute [openKeys] and returns it,
    making no call to [resolve]; the promise is pending all the same. *)
Theorem saveOpenKeys_then_loadOpenKeys
    (JSON_parse : string → option (list string))
    (JSON_stringify : list string → string)
    (openKeys : list string) (ls : storage) :
  JSON_parse (JSON_stringify openKeys) = Some openKeys →
  truthy (JSON_stringify openKeys) = true →
  let ls' := saveOpenKeys JSON_stringify openKeys ls in
  completion (loadOpenKeys_executor JSON_parse ls') = inl openKeys ∧
  calls (loadOpenKeys_executor JSON_parse ls') = [] ∧
  loadOpenKeys JSON_parse ls' = Pending.
Proof.
  intros Hp Ht ls'.
  unfold loadOpenKeys, loadOpenKeys_executor, new_Promise, ls', saveOpenKeys.
  simpl. by rewrite getItem_setItem, Ht, Hp.
Qed.

End SettingsExtras.

(** * Further properties of the editor binding *)

Module HandrawMoreFacts.
Import Handraw HandrawFacts Runs.

Section Component.
Variable Data : Type.
Variable JSON_stringify : Data → string.
Variable valid_key : string → bool.

Abbreviation state := (state Data).
Abbreviation step := (step Data JSON_stringify valid_key).
Abbreviation run := (run Data JSON_stringify valid_key).
Abbreviation elapse := (elapse Data JSON_stringify valid_key).
Abbreviation rerender := (rerender Data valid_key).
Abbreviation onChangeFn := (onChangeFn Data JSON_stringify valid_key).
Abbreviation put := (CanvasStore.addOrUpdateCanvas valid_key).

Lemma run_cons e es (st : state) : run (e :: es) st = run es (step st e).
Proof. done. Qed.

Lemma truthy_default v :
  Js.truthy (Js.opt_or_default v DEFAULT_DATA_SOURCE) = true.
Proof. destruct v as [s|]; [|done]. simpl. by destruct (Js.truthy s) eqn:E. Qed.

Lemma put_delete i c d :
  delete i (CanvasStore.records (put i c d).1) = delete i (CanvasStore.records d).
Proof.
  unfold CanvasStore.addOrUpdateCanvas.
  destruct (CanvasStore.check valid_key i d); simpl; [done|].
  apply delete_insert_eq.
Qed.

(** What [elapse] does in each of its three cases. *)
Lemma elapse_cases dt (st : state) :
  (elapse dt st = set_now Data (now Data st + dt) st) ∨
  (∃ due data,
      timer Data st = Some (due, data) ∧
      elapse dt st =
        drop Data (onChangeFn data
                     (set_timer Data None (set_now Data (now Data st + dt) st)))).
Proof.
  destruct (timer Data st) as [[due data]|] eqn:Et.
  - destruct (decide (due ≤ now Data st + dt)) as [Hle|Hgt].
    + right. exists due, data. split; [done|]. by eapply elapse_due.
    + left. eapply elapse_early; [done | lia].
  - left. by apply elapse_idle.
Qed.

(** One event: the closure of [onChangeFn] is never rebound, and either
    nothing is written or the pending edit is, under the closure's
    identifier. *)
Lemma step_writes e (st : state) :
  closure_file_id Data (step st e) = closure_file_id Data st ∧
  ((writes Data (step st e) = writes Data st ∧
    store Data (step st e) = store Data st) ∨
   (∃ data,
       writes Data (step st e) =
         writes Data st ++ [(closure_file_id Data st, JSON_stringify data)] ∧
       store Data (step st e) =
         (put (closure_file_id Data st) (JSON_stringify data) (store Data st)).1)).
Proof.
  destruct e as [data|f|dt]; simpl.
  - split; [done|]. by left.
  - destruct (rerender_frame Data valid_key f st) as (_ & Hc & _ & _ & Hs & Hw & _).
    split; [done|]. by left.
  - destruct (elapse_cases dt st) as [->|(due & data & Ht & ->)].
    + split; [done|]. by left.
    + match goal with
      | |- context [drop Data (onChangeFn data ?s)] =>
          destruct (onChangeFn_frame Data JSON_stringify valid_key data s)
            as (Hw & Hs & _ & _ & _ & Hc & _)
      end.
      simpl in *. split; [done|]. right. by exists data.
Qed.

Lemma run_writes es (st : state) :
  closure_file_id Data (run es st) = closure_file_id Data st ∧
  (∃ new, writes Data (run es st) = writes Data st ++ new ∧
          Forall (fun w => w.1 = closure_file_id Data st) new) ∧
  delete (closure_file_id Data st) (CanvasStore.records (store Data (run es st))) =
    delete (closure_file_id Data st) (CanvasStore.records (store Data st)).
Proof.
  revert st. induction es as [|e es IH]; intros st.
  - split; [done|]. split; [|done]. exists []. by rewrite app_nil_r.
  - rewrite run_cons.
    destruct (IH (step st e)) as (Hc & (new & Hw & Hnew) & Hd).
    destruct (step_writes e st) as (Hc1 & Hcase).
    rewrite Hc1 in *. split; [done|].
    destruct Hcase as [[Hw1 Hs1]|(data & Hw1 & Hs1)].
    + rewrite Hw, Hd, Hw1, Hs1. split; [by exists new | done].
    + rewrite Hw, Hd, Hw1, Hs1, put_delete. split; [|done].
      exists ((closure_file_id Data st, JSON_stringify data) :: new).
      split; [by rewrite <- app_assoc | by constructor].
Qed.

(** One event adds at most one to the number of writes made and pending,
    and only when it is an edit. *)
Lemma step_measure e (st : state) :
  length (writes Data (step st e)) + pending Data (step st e) ≤
    length (writes Data st) + pending Data st + edits Data [e].
Proof.
  unfold pending. destruct e as [data|f|dt]; simpl.
  - destruct (timer Data st); lia.
  - destruct (rerender_frame Data valid_key f st) as (_ & _ & -> & _ & _ & -> & _).
    lia.
  - destruct (elapse_cases dt st) as [->|(due & data & Ht & ->)]; simpl; [lia|].
    match goal with
    | |- context [drop Data (onChangeFn data ?s)] =>
        destruct (onChangeFn_frame Data JSON_stringify valid_key data s)
          as (-> & _ & _ & -> & _)
    end.
    simpl. rewrite Ht, length_app. simpl. lia.
Qed.

Lemma edits_cons e es : edits Data (e :: es) = edits Data [e] + edits Data es.
Proof. by destruct e. Qed.

Lemma run_measure es (st : state) :
  length (writes Data (run es st)) + pending Data (run es st) ≤
    length (writes Data st) + pending Data st + edits Data es.
Proof.
  revert st. induction es as [|e es IH]; intros st; [simpl; lia|].
  rewrite run_cons, edits_cons.
  pose proof (IH (step st e)). pose proof (step_measure e st). lia.
Qed.

(** Being hydrated: [dataSource] holds a non-empty string. *)
Lemma render_is_Some (st : state) :
  is_Some (render Data st) ↔
  ∃ ds, dataSource Data st = Some ds ∧ Js.truthy ds = true.
Proof.
  unfold render. destruct (dataSource Data st) as [ds|].
  - destruct (Js.truthy ds) eqn:E.
    + split; [by exists ds | by eexists].
    + split; [by intros [? ?] | intros (? & [= <-] & ?); congruence].
  - split; [by intros [? ?] | by intros (? & ? & ?)].
Qed.

Lemma effect_hydrated (st : state) :
  is_Some (render Data st) → is_Some (render Data (effect Data valid_key st)).
Proof.
  rewrite !render_is_Some. intros (ds & Hds & Ht).
  unfold effect, getDataSource.
  destruct (CanvasStore.getCanvas valid_key (id (file Data st)) (store Data st))
    as [|data|e]; simpl; [by exists ds| |by exists ds].
  eexists. split; [done | apply truthy_default].
Qed.

Lemma step_hydrated e (st : state) :
  is_Some (render Data st) → is_Some (render Data (step st e)).
Proof.
  destruct e as [data|f|dt]; simpl.
  - by rewrite !render_is_Some.
  - intros H. unfold Handraw.rerender.
    destruct (String.eqb (id f) (id (file Data st)));
      [|apply effect_hydrated]; by rewrite render_is_Some in *.
  - rewrite !render_is_Some. intros Hds.
    destruct (elapse_cases dt st) as [->|(due & data & Ht & ->)]; [done|].
    match goal with
    | |- context [drop Data (onChangeFn data ?s)] =>
        destruct (onChangeFn_frame Data JSON_stringify valid_key data s)
          as (_ & _ & _ & _ & _ & _ & _ & ->)
    end.
    done.
Qed.

(** The store once a burst of edits has been flushed. *)
Lemma run_burst_flush e1 rest w (st : state) :
  Forall (fun ge => ge.1 < DEBOUNCE_WAIT) rest →
  DEBOUNCE_WAIT ≤ w →
  store Data (run (burst Data e1 rest ++ [Elapse Data w]) st) =
    (put (closure_file_id Data st) (JSON_stringify (last_edit Data e1 rest))
       (store Data st)).1.
Proof.
  intros Hgaps Hw.
  rewrite run_app, (run_burst Data JSON_stringify valid_key e1 rest st Hgaps).
  change (run [Elapse Data w] ?s) with (elapse w s).
  erewrite elapse_due; [| done | simpl; lia].
  match goal with
  | |- context [drop Data (onChangeFn ?d ?s)] =>
      destruct (onChangeFn_frame Data JSON_stringify valid_key d s)
        as (_ & -> & _)
  end.
  done.
Qed.

End Component.

End HandrawMoreFacts.

Section HandrawExtras.
Import Handraw HandrawFacts HandrawMoreFacts Runs.

Variable Data : Type.
Variable JSON_stringify : Data → string.
Variable valid_key : string → bool.

Abbreviation state := (state Data).
Abbreviation run := (run Data JSON_stringify valid_key).
Abbreviation rerender := (rerender Data valid_key).
Abbreviation mount := (mount Data valid_key).
Abbreviation put := (CanvasStore.addOrUpdateCanvas valid_key).

(** X9: edits that are each followed by a pause of at least the 200 ms
    window are written one by one: the calls of [addOrUpdateCanvas] added
    are exactly the serialized edits, in order. *)
Theorem spaced_edits_one_write_each (l : list (Data * nat)) (st : state) :
  Forall (fun dp => DEBOUNCE_WAIT ≤ dp.2) l →
  writes Data (run (spaced Data l) st) =
    writes Data st ++
    map (fun dp => (closure_file_id Data st, JSON_stringify dp.1)) l.
Proof.
  revert st. induction l as [|[d p] l IH]; intros st Hl.
  - simpl. by rewrite app_nil_r.
  - apply Forall_cons in Hl as [Hp Hl]. simpl in Hp.
    change (run (spaced Data ((d, p) :: l)) st)
      with (run (spaced Data l)
              (elapse Data JSON_stringify valid_key p
                 (onChangeDebounceFn Data d st))).
    rewrite (IH _ Hl).
    rewrite (elapse_due Data JSON_stringify valid_key p
               (now Data st + DEBOUNCE_WAIT) d) by (try done; simpl; lia).
    match goal with
    | |- context [drop Data (Handraw.onChangeFn _ _ _ d ?s)] =>
        destruct (onChangeFn_frame Data JSON_stringify valid_key d s)
          as (-> & _ & _ & _ & _ & -> & _)
    end.
    simpl. by rewrite <- app_assoc.
Qed.

(** X10: whatever edits, switches and pauses follow the mount, every write
    the component makes goes under the identifier it was mounted with: the
    closure of [onChangeFn] is never rebound, and the records of all other
    documents, those switched to included, stay as they were. *)
Theorem writes_under_mount_id es f t d :
  let st := run es (mount f t d) in
  closure_file_id Data st = id f ∧
  Forall (fun w => w.1 = id f) (writes Data st) ∧
  delete (id f) (CanvasStore.records (store Data st)) =
    delete (id f) (CanvasStore.records d).
Proof.
  intros st.
  destruct (run_writes Data JSON_stringify valid_key es (mount f t d))
    as (Hc & (new & Hw & Hnew) & Hd).
  destruct (effect_frame Data valid_key (State Data f (id f) None None t d [] [] []))
    as (_ & Hc0 & _ & _ & Hs0 & Hw0 & _).
  simpl in Hc0, Hs0, Hw0. fold (mount f t d) in Hc0, Hs0, Hw0.
  rewrite Hc0 in *. rewrite Hs0 in Hd. rewrite Hw0 in Hw.
  subst st. by rewrite Hw.
Qed.

(** X11: what was edited last is what a later mount shows.  Over a store
    that accepts the write, once a burst of edits has been flushed, a
    component mounted for the same identifier is rendered with the
    serialized content of the last edit (provided that text is not
    empty). *)
Theorem edit_then_remount (st : state) e1 rest w canvasName t :
  Forall (fun ge => ge.1 < DEBOUNCE_WAIT) rest →
  DEBOUNCE_WAIT ≤ w →
  CanvasStore.check valid_key (closure_file_id Data st) (store Data st) = None →
  Js.truthy (JSON_stringify (last_edit Data e1 rest)) = true →
  let st' := run (burst Data e1 rest ++ [Elapse Data w]) st in
  render Data (mount (File (closure_file_id Data st) canvasName) t (store Data st')) =
    Some (Revedraw (JSON_stringify (last_edit Data e1 rest)) canvasName).
Proof.
  intros Hgaps Hw Hok Ht st'. subst st'.
  rewrite (run_burst_flush Data JSON_stringify valid_key e1 rest w st Hgaps Hw).
  unfold CanvasStore.addOrUpdateCanvas. rewrite Hok. simpl.
  unfold Handraw.mount, effect, getDataSource, CanvasStore.getCanvas. simpl.
  assert (CanvasStore.check valid_key (closure_file_id Data st)
            (CanvasStore.Db (CanvasStore.available (store Data st))
               (<[closure_file_id Data st :=
                    JSON_stringify (last_edit Data e1 rest)]>
                  (CanvasStore.records (store Data st)))) = None) as ->.
  { revert Hok. unfold CanvasStore.check. simpl.
    by destruct (CanvasStore.available (store Data st)). }
  simpl. rewrite lookup_insert_eq. simpl. rewrite Ht.
  unfold render. simpl. by rewrite Ht.
Qed.

(** X12: when the read for the document switched to fails, the component
    goes on showing the content of the previous document, now under the
    name of the new one; the rejection is left unobserved. *)
Theorem switch_failed_read_keeps_content (st : state) f2 e v :
  id f2 ≠ id (file Data st) →
  CanvasStore.getCanvas valid_key (id f2) (store Data st) = Js.Rejected e →
  render Data st = Some v →
  render Data (rerender f2 st) = Some (Revedraw (view_dataSource v) (name f2)) ∧
  unhandled Data (rerender f2 st) = unhandled Data st ++ [e].
Proof.
  intros Hne Hr Hv. unfold Handraw.rerender.
  apply String.eqb_neq in Hne. rewrite Hne.
  unfold effect, getDataSource. simpl. rewrite Hr. simpl.
  split; [|done]. revert Hv. unfold render. simpl.
  destruct (dataSource Data st) as [ds|]; [|done].
  destruct (Js.truthy ds); [|done]. by intros [= <-].
Qed.

(** X13: switching to a document whose stored content is a non-empty
    string shows that content under the document's name. *)
Theorem switch_hydrates_stored (st : state) f2 content :
  id f2 ≠ id (file Data st) →
  CanvasStore.getCanvas valid_key (id f2) (store Data st) =
    Js.Fulfilled (Some content) →
  Js.truthy content = true →
  render Data (rerender f2 st) = Some (Revedraw content (name f2)).
Proof.
  intros Hne Hr Ht. unfold Handraw.rerender.
  apply String.eqb_neq in Hne. rewrite Hne.
  unfold effect, getDataSource. simpl. rewrite Hr. simpl.
  unfold render. simpl. by rewrite Ht, Ht.
Qed.

(** X14: once the editor is rendered it stays rendered: no edit, switch or
    pause brings the component back to rendering nothing, a failed read on
    a switch included. *)
Theorem rendered_stays_rendered es (st : state) :
  is_Some (render Data st) → is_Some (render Data (run es st)).
Proof.
  revert st. induction es as [|e es IH]; intros st H; [done|].
  rewrite run_cons. apply IH. by apply step_hydrated.
Qed.

(** X15: the component never makes more writes than it has received edits:
    after any events following the mount, the number of calls of
    [addOrUpdateCanvas] is at most the number of edits among them. *)
Theorem writes_bounded_by_edits es f t d :
  length (writes Data (run es (mount f t d))) ≤ edits Data es.
Proof.
  pose proof (run_measure Data JSON_stringify valid_key es (mount f t d)) as H.
  destruct (effect_frame Data valid_key (State Data f (id f) None None t d [] [] []))
    as (_ & _ & Ht0 & _ & _ & Hw0 & _).
  simpl in Ht0, Hw0. fold (mount f t d) in Ht0, Hw0.
  unfold pending in H. rewrite Ht0, Hw0 in H. simpl in H. lia.
Qed.

End HandrawExtras.

(** ** The further properties on concrete inputs *)

Section ExtrasInstances.
Import Js LocalStorage Handraw Runs Sample.

Lemma add_all_elem_of_witness :
  let ls : storage := {[LOCALSTORAGE_BOARD_CUSTOM_FONTS := "Times"%string]} in
  let names := ["Arial"; "Courier"]%string in
  Forall (fun x => has_comma x = false) names ∧
  ("Arial"%string ∈ customFontList (add_all names ls) ↔
   "Arial"%string ∈ customFontList ls ∨ "Arial"%string ∈ names).
Proof.
  intros ls names.
  assert (Forall (fun x => has_comma x = false) names) as Hn
    by (repeat constructor).
  split; [exact Hn|].
  exact (add_all_elem_of names ls "Arial"%string Hn).
Defined.

Lemma add_all_NoDup_witness :
  let names := ["Arial"; "Times"; "Arial"]%string in
  Forall (fun x => has_comma x = false) names ∧
  NoDup (customFontList (∅ : storage)) ∧
  NoDup (customFontList (add_all names ∅)) ∧
  customFontList (add_all names ∅) = ["Arial"; "Times"]%string.
Proof.
  intros names.
  assert (Forall (fun x => has_comma x = false) names) as Hn
    by (repeat constructor).
  assert (NoDup (customFontList (∅ : storage))) as Hd by apply NoDup_nil_2.
  split; [exact Hn|]. split; [exact Hd|].
  split; [exact (add_all_NoDup names ∅ Hn Hd) | reflexivity].
Defined.

Lemma saveBoardCustomFont_list_round_trip_witness :
  let l := ["Arial"; "Times"]%string in
  Forall (fun w => has_comma w = false) l ∧
  truthy (join l) = true ∧
  customFontList (saveBoardCustomFont (Some (join l)) ∅) = l.
Proof.
  intros l.
  assert (Forall (fun w => has_comma w = false) l) as Hl by (repeat constructor).
  split; [exact Hl|]. split; [reflexivity|].
  exact (saveBoardCustomFont_list_round_trip l ∅ Hl eq_refl).
Defined.

Lemma saveOpenKeys_then_loadOpenKeys_witness :
  let JSON_stringify := fun keys : list string => String "["%char (join keys) in
  let JSON_parse := fun s : string =>
    match s with
    | String c r => if Ascii.eqb c "["%char then Some (split r) else None
    | EmptyString => None
    end in
  let openKeys := ["notes"; "boards"]%string in
  JSON_parse (JSON_stringify openKeys) = Some openKeys ∧
  truthy (JSON_stringify openKeys) = true ∧
  loadOpenKeys JSON_parse (saveOpenKeys JSON_stringify openKeys ∅) = Pending.
Proof.
  intros JSON_stringify JSON_parse openKeys.
  split; [reflexivity|]. split; [reflexivity|].
  exact (proj2 (proj2 (saveOpenKeys_then_loadOpenKeys JSON_parse JSON_stringify
                         openKeys ∅ eq_refl eq_refl))).
Defined.

Lemma spaced_edits_one_write_each_witness :
  let st := mount Doc any_key d1 0 CanvasStore.empty in
  let l := [("a", 200); ("b", 350)]%string in
  Forall (fun dp : Doc * nat => DEBOUNCE_WAIT ≤ dp.2) l ∧
  writes Doc (run Doc json any_key (spaced Doc l) st) =
    [("d1", "a"); ("d1", "b")]%string.
Proof.
  intros st l.
  assert (Forall (fun dp : Doc * nat => DEBOUNCE_WAIT ≤ dp.2) l) as Hl
    by (repeat constructor; unfold DEBOUNCE_WAIT; simpl; lia).
  split; [exact Hl|].
  exact (spaced_edits_one_write_each Doc json any_key l st Hl).
Defined.

Lemma edit_then_remount_witness :
  let st := mount Doc any_key d1 0 CanvasStore.empty in
  let rest := [(50, "b")]%string in
  Forall (fun ge : nat * Doc => ge.1 < DEBOUNCE_WAIT) rest ∧
  DEBOUNCE_WAIT ≤ 200 ∧
  CanvasStore.check any_key (closure_file_id Doc st) (store Doc st) = None ∧
  truthy (json (last_edit Doc "a"%string rest)) = true ∧
  render Doc
    (mount Doc any_key (File "d1" "first") 500
       (store Doc
          (run Doc json any_key
             (burst Doc "a"%string rest ++ [Elapse Doc 200]) st))) =
    Some (Revedraw "b" "first").
Proof.
  intros st rest.
  assert (Forall (fun ge : nat * Doc => ge.1 < DEBOUNCE_WAIT) rest) as Hg
    by (repeat constructor; unfold DEBOUNCE_WAIT; simpl; lia).
  assert (DEBOUNCE_WAIT ≤ 200) as Hw by (unfold DEBOUNCE_WAIT; lia).
  split; [exact Hg|]. split; [exact Hw|].
  split; [reflexivity|]. split; [reflexivity|].
  exact (edit_then_remount Doc json any_key st "a"%string rest 200
           "first"%string 500 Hg Hw eq_refl eq_refl).
Defined.

Lemma switch_failed_read_keeps_content_witness :
  let only_d1 := fun k : string => String.eqb k "d1" in
  let st := mount Doc only_d1 d1 0
              (CanvasStore.Db true {["d1"%string := "{1}"%string]}) in
  id d2 ≠ id (file Doc st) ∧
  CanvasStore.getCanvas only_d1 (id d2) (store Doc st) = Rejected InvalidKey ∧
  render Doc st = Some (Revedraw "{1}" "first") ∧
  render Doc (rerender Doc only_d1 d2 st) = Some (Revedraw "{1}" "second").
Proof.
  intros only_d1 st.
  assert (id d2 ≠ id (file Doc st)) as Hne by discriminate.
  split; [exact Hne|]. split; [reflexivity|]. split; [reflexivity|].
  exact (proj1 (switch_failed_read_keeps_content Doc only_d1 st d2 InvalidKey
                  (Revedraw "{1}" "first") Hne eq_refl eq_refl)).
Defined.

Lemma switch_hydrates_stored_witness :
  let st := mount Doc any_key d1 0
              (CanvasStore.Db true {["d2"%string := "{2}"%string]}) in
  id d2 ≠ id (file Doc st) ∧
  CanvasStore.getCanvas any_key (id d2) (store Doc st) =
    Fulfilled (Some "{2}"%string) ∧
  truthy "{2}" = true ∧
  render Doc (rerender Doc any_key d2 st) = Some (Revedraw "{2}" "second").
Proof.
  intros st.
  assert (id d2 ≠ id (file Doc st)) as Hne by discriminate.
  split; [exact Hne|]. split; [reflexivity|]. split; [reflexivity|].
  exact (switch_hydrates_stored Doc any_key st d2 "{2}"%string Hne
           eq_refl eq_refl).
Defined.

Lemma rendered_stays_rendered_witness :
  let st := mount Doc any_key d1 0 CanvasStore.empty in
  let es := [Edit Doc "a"%string; Switch Doc d2; Elapse Doc 300] in
  is_Some (render Doc st) ∧
  is_Some (render Doc (run Doc json any_key es st)).
Proof.
  intros st es.
  assert (is_Some (render Doc st)) as H by (eexists; reflexivity).
  split; [exact H|].
  exact (rendered_stays_rendered Doc json any_key es st H).
Defined.

End ExtrasInstances.
